(** * nimuv: the connection-lifecycle core of the libuv HTTP front-end

    A shallow embedding of [src/nimuv/nimuv.c].  The C functions are
    written as programs of a small free monad whose only effects are the
    calls the file makes into code it does not define: the parser
    collaborator ([http_readheader], [http_continue], [http_end]), libuv
    ([uv_*]) and libc ([malloc], [free], [fprintf]).  A program is run
    against an arbitrary environment that answers those calls; the run
    yields the final value, the final environment state and the trace of
    calls made, each with the answer it got. *)

From Stdlib Require Import ZArith List Lia Bool.
From Stdlib Require Import Strings.Byte.
From ExtLib Require Import Structures.Monad.
Import ListNotations.
Import MonadNotation.

Local Open Scope Z_scope.
Local Open Scope monad_scope.

(** ** Data *)

(** Pointers are addresses; [NULL] is address 0. *)
Definition ptr : Type := Z.
Definition NULL : ptr := 0.

(** C truth value of an [int]: [if (r)] tests [r != 0]. *)
Definition truthy (r : Z) : bool := negb (r =? 0).

(** [client_t] (declared in nimuv.h).  The code uses three members:
    [handle] (a [uv_tcp_t]) and [req] (a [uv_write_t]), of which only the
    addresses are taken, and the pointer [nim_request].  [self] is the
    address of the struct, [handle] and [req] the addresses
    [&client->handle] and [&client->req]. *)
Record client_t : Type := mk_client {
  self : ptr;
  handle : ptr;
  req : ptr;
  nim_request : ptr
}.

(** The assignment [client->nim_request = p]. *)
Definition set_nim_request (p : ptr) (client : client_t) : client_t :=
  {| self := self client; handle := handle client; req := req client;
     nim_request := p |}.

(** libuv's [uv_buf_t]. *)
Record uv_buf_t : Type := mk_buf { base : ptr; len : Z }.

(** libuv's [uv_buf_init (char* base, unsigned int len)]: a length passed
    as a [size_t] is converted to [unsigned int], that is, reduced modulo
    2^32. *)
Definition uv_buf_init (base : ptr) (len : Z) : uv_buf_t :=
  {| base := base; len := len mod 2 ^ 32 |}.

(** [struct sockaddr_in], filled in by [uv_ip4_addr]. *)
Record sockaddr_in : Type := mk_sockaddr { sin_addr : Z; sin_port : Z }.

(** The file's static variable [loop]; the other one, [server], is only
    used through its address. *)
Record globals : Type := mk_globals { loop : ptr }.

(** ** External calls

    One constructor per function the file calls and does not define; the
    index is the type of the answer.  A call whose result the code
    ignores answers [unit].  Callback arguments are not recorded: they
    are fixed in the source ([on_close] for [uv_close], [on_alloc] and
    [on_read] for [uv_read_start], [on_connection] for [uv_listen], NULL
    for [uv_write]). *)
Variant call : Type -> Type :=
| http_readheader (client : ptr) (base : ptr) (nread : Z) : call ptr
| http_continue (request : ptr) (base : ptr) (nread : Z) : call Z
| http_end (request : ptr) : call unit
| malloc (size : Z) : call ptr
| free (p : ptr) : call unit
| uv_default_loop : call ptr
| uv_tcp_init (loop : ptr) (handle : ptr) : call unit
| uv_ip4_addr (ip : ptr) (port : Z) : call sockaddr_in
| uv_tcp_bind (handle : ptr) (address : sockaddr_in) : call Z
| uv_listen (handle : ptr) (backlog : Z) : call Z
| uv_run (loop : ptr) : call unit
| uv_accept (server : ptr) (client : ptr) : call Z
| uv_read_start (handle : ptr) : call unit
| uv_close (handle : ptr) : call unit
| uv_write (req : ptr) (handle : ptr) (bufs : list uv_buf_t) : call Z
| uv_strerror (err : Z) : call ptr
| fprintf_stderr (line : ptr) : call unit.

(** ** Programs *)

(** A program returns, makes an external call and goes on with its
    answer, or has no defined behaviour. *)
Inductive prog (A : Type) : Type :=
| Ret (a : A)
| Vis (X : Type) (c : call X) (k : X -> prog A)
| Undef.

Arguments Ret {A} a.
Arguments Vis {A X} c k.
Arguments Undef {A}.

Fixpoint pbind {A B : Type} (m : prog A) (f : A -> prog B) : prog B :=
  match m with
  | Ret a => f a
  | Vis c k => Vis c (fun x => pbind (k x) f)
  | Undef => Undef
  end.

#[export] Instance Monad_prog : Monad prog :=
  {| ret := @Ret; bind := @pbind |}.

Definition perform {X : Type} (c : call X) : prog X := Vis c Ret.

(** A trace entry: a call and the answer it received. *)
Inductive event : Type :=
| Ev (X : Type) (c : call X) (x : X).

Arguments Ev {X} c x.

(** What a completed run leaves behind. *)
Record outcome (W A : Type) : Type := mk_outcome {
  value : A;
  world : W;
  trace : list event
}.

Arguments mk_outcome {W A} value world trace.
Arguments value {W A} o.
Arguments world {W A} o.
Arguments trace {W A} o.

(** An environment answers every call and moves to a new state of its
    own.  While it answers it neither writes the client struct nor calls
    back into this file: the calls the collaborator makes to
    [send_response] and [end_response] reach a connection as inputs of
    their own (see [input] below). *)
Definition environment (W : Type) : Type :=
  forall X : Type, call X -> W -> X * W.

Fixpoint run {W A : Type} (env : environment W) (m : prog A) (w : W)
  : option (outcome W A) :=
  match m with
  | Ret a => Some (mk_outcome a w [])
  | Vis c k =>
      let (x, w1) := env _ c w in
      match run env (k x) w1 with
      | Some (mk_outcome a w2 tr) => Some (mk_outcome a w2 (Ev c x :: tr))
      | None => None
      end
  | Undef => None
  end.

(** ** libc's [strlen] *)

(** The number of bytes before the first NUL of a region of memory; a
    region that holds no NUL makes [strlen] read past its end. *)
Fixpoint strlen_bytes (region : list byte) : option Z :=
  match region with
  | [] => None
  | b :: rest =>
      if Byte.eqb b x00 then Some 0
      else option_map Z.succ (strlen_bytes rest)
  end.

(** ** The functions of nimuv.c *)

Section Nimuv.

(** Memory, read by [strlen] only: the bytes stored from an address to
    the end of the object it points into. *)
Variable mem : ptr -> list byte.

(** The address [&server] of the static listening handle. *)
Variable server : ptr.

(** nimuv.h is not part of the sources: the size of [client_t] and the
    offsets of its members [handle] and [req]. *)
Variable sizeof_client_t : Z.
Variable offsetof_handle : Z.
Variable offsetof_req : Z.

Definition strlen (s : ptr) : prog Z :=
  match strlen_bytes (mem s) with
  | Some n => ret n
  | None => Undef
  end.

(** [fprintf(stderr, "%s\n", uv_strerror(r))] *)
Definition log_error (r : Z) : prog unit :=
  msg <- perform (uv_strerror r) ;;
  perform (fprintf_stderr msg).

(** [handle->data] is the client, set by [on_connection]. *)
Definition on_close (client : client_t) : prog unit :=
  perform (free (self client)).

Definition on_alloc (suggested_size : Z) : prog uv_buf_t :=
  p <- perform (malloc suggested_size) ;;
  ret {| base := p; len := suggested_size |}.

Definition end_response (client : client_t) : prog unit :=
  perform (uv_close (handle client)).

(** [tcp->data] is the client, set by [on_connection]; the updated
    struct is returned. *)
Definition on_read (client : client_t) (nread : Z) (buf : uv_buf_t)
  : prog client_t :=
  client' <-
    (if 0 <=? nread then
       if nim_request client =? NULL then
         h <- perform (http_readheader (self client) (base buf) nread) ;;
         ret (set_nim_request h client)
       else
         more <- perform (http_continue (nim_request client) (base buf) nread) ;;
         if negb (truthy more) then ret (set_nim_request NULL client)
         else ret client
     else
       (if negb (nim_request client =? NULL)
        then perform (http_end (nim_request client))
        else ret tt) ;;
       end_response client ;;
       ret client) ;;
  perform (free (base buf)) ;;
  ret client'.

(** Returns the client it registered for reading, if any.  Writing
    through the result of a failed [malloc] is undefined.  The store
    [client->handle.data = client] is what lets [on_read] and [on_close]
    take the client itself. *)
Definition on_connection (g : globals) : prog (option client_t) :=
  p <- perform (malloc sizeof_client_t) ;;
  if p =? NULL then Undef
  else
    let client := {| self := p; handle := p + offsetof_handle;
                     req := p + offsetof_req; nim_request := NULL |} in
    perform (uv_tcp_init (loop g) (handle client)) ;;
    r <- perform (uv_accept server (handle client)) ;;
    if truthy r then
      perform (free (self client)) ;;
      ret None
    else
      perform (uv_read_start (handle client)) ;;
      ret (Some client).

Definition send_response (client : client_t) (buffer : ptr)
  : prog client_t :=
  n <- strlen buffer ;;
  let resp_buffer := uv_buf_init buffer n in
  r <- perform (uv_write (req client) (handle client) [resp_buffer]) ;;
  if truthy r then
    log_error r ;;
    (if negb (nim_request client =? NULL)
     then perform (http_end (nim_request client))
     else ret tt) ;;
    perform (uv_close (handle client)) ;;
    ret client
  else ret client.

Definition start_server (ip : ptr) (port : Z) : prog globals :=
  l <- perform uv_default_loop ;;
  perform (uv_tcp_init l server) ;;
  address <- perform (uv_ip4_addr ip port) ;;
  r <- perform (uv_tcp_bind server address) ;;
  (if truthy r then log_error r else ret tt) ;;
  r <- perform (uv_listen server 128) ;;
  (if truthy r then log_error r else ret tt) ;;
  perform (uv_run l) ;;
  ret {| loop := l |}.

(** ** What reaches one connection

    The reactor delivers read events; the collaborator calls
    [send_response] and [end_response]. *)
Inductive input : Type :=
| Read (nread : Z) (buf : uv_buf_t)
| SendResponse (buffer : ptr)
| EndResponse.

Definition deliver (i : input) (client : client_t) : prog client_t :=
  match i with
  | Read nread buf => on_read client nread buf
  | SendResponse buffer => send_response client buffer
  | EndResponse => end_response client ;; ret client
  end.

Fixpoint deliver_all (ins : list input) (client : client_t)
  : prog client_t :=
  match ins with
  | [] => ret client
  | i :: rest => client' <- deliver i client ;; deliver_all rest client'
  end.

End Nimuv.


(** ** Reading traces *)

Definition count {A : Type} (p : A -> bool) (l : list A) : nat :=
  length (filter p l).

(** [uv_close] on the handle [h]. *)
Definition is_close_of (h : ptr) (e : event) : bool :=
  match e with
  | Ev c _ => match c with uv_close h' => h' =? h | _ => false end
  end.

Definition is_http_end (e : event) : bool :=
  match e with
  | Ev c _ => match c with http_end _ => true | _ => false end
  end.

(** [http_end] on the request [q]. *)
Definition is_http_end_of (q : ptr) (e : event) : bool :=
  match e with
  | Ev c _ => match c with http_end q' => q' =? q | _ => false end
  end.

Definition is_free (e : event) : bool :=
  match e with
  | Ev c _ => match c with free _ => true | _ => false end
  end.

(** A line written to the diagnostic stream. *)
Definition is_log (e : event) : bool :=
  match e with
  | Ev c _ => match c with fprintf_stderr _ => true | _ => false end
  end.

Definition is_write (e : event) : bool :=
  match e with
  | Ev c _ => match c with uv_write _ _ _ => true | _ => false end
  end.

(** A write submission that [uv_write] refused. *)
Definition is_failed_write (e : event) : bool :=
  match e with
  | Ev c x =>
      match c in call X return X -> bool with
      | uv_write _ _ _ => fun r => truthy r
      | _ => fun _ => false
      end x
  end.

(** The bytes a buffer descriptor designates. *)
Definition designated (mem : ptr -> list byte) (b : uv_buf_t) : list byte :=
  firstn (Z.to_nat (len b)) (mem (base b)).

(** Inputs that start a teardown by themselves. *)
Definition is_read_error (i : input) : bool :=
  match i with Read nread _ => nread <? 0 | _ => false end.

Definition is_end_response (i : input) : bool :=
  match i with EndResponse => true | _ => false end.

(** What [start_server] writes after a libuv call that answered [r]. *)
Definition logged (r : Z) (tr : list event) : Prop :=
  (r = 0 /\ tr = []) \/
  (r <> 0 /\ exists msg, tr = [Ev (uv_strerror r) msg; Ev (fprintf_stderr msg) tt]).

(** ** The reactor's read cycle

    libuv asks [on_alloc] for a buffer before every read and hands that
    buffer to [on_read] together with the result of the read. *)
Definition read_cycle (client : client_t) (suggested_size nread : Z)
  : prog client_t :=
  buf <- on_alloc suggested_size ;;
  on_read client nread buf.

(** ** More ways of reading traces and inputs *)

Definition is_malloc (e : event) : bool :=
  match e with
  | Ev c _ => match c with malloc _ => true | _ => false end
  end.

(** [free] on the address [p]. *)
Definition is_free_of (p : ptr) (e : event) : bool :=
  match e with
  | Ev c _ => match c with free p' => p' =? p | _ => false end
  end.

Definition is_read_start (e : event) : bool :=
  match e with
  | Ev c _ => match c with uv_read_start _ => true | _ => false end
  end.

(** The addresses passed to [free], in order. *)
Definition freed (tr : list event) : list ptr :=
  flat_map (fun e => match e with
                     | Ev c _ => match c with free p => [p] | _ => [] end
                     end) tr.

(** The buffers of the read events, in order. *)
Definition read_buffers (ins : list input) : list ptr :=
  flat_map (fun i => match i with Read _ buf => [base buf] | _ => [] end) ins.

Definition is_successful_read (i : input) : bool :=
  match i with Read nread _ => 0 <=? nread | _ => false end.

Definition is_send_response (i : input) : bool :=
  match i with SendResponse _ => true | _ => false end.

(** The buffer of a [send_response] holds a NUL. *)
Definition terminated (mem : ptr -> list byte) (i : input) : bool :=
  match i with
  | SendResponse buffer =>
      match strlen_bytes (mem buffer) with Some _ => true | None => false end
  | _ => true
  end.

(** The parser's protocol, followed along a trace: [http_readheader] is
    called only while no request is pending and its answer becomes the
    pending request; [http_continue] and [http_end] are called only on
    the pending request, which is not NULL; an answer of 0 to
    [http_continue] ends the request.  The result is the request pending
    at the end, or [None] where the trace leaves the protocol. *)
Fixpoint follow (pending : ptr) (tr : list event) : option ptr :=
  match tr with
  | [] => Some pending
  | Ev c x :: rest =>
      match c in call X return X -> option ptr with
      | http_readheader _ _ _ => fun h =>
          if pending =? NULL then follow h rest else None
      | http_continue q _ _ => fun more =>
          if (q =? pending) && negb (q =? NULL)
          then follow (if more =? 0 then NULL else pending) rest
          else None
      | http_end q => fun _ =>
          if (q =? pending) && negb (q =? NULL)
          then follow pending rest
          else None
      | _ => fun _ => follow pending rest
      end x
  end.

(** ** A sample connection and sample environments *)

Module Sample.

(** An environment that counts the calls made to it.  The parser
    answers [header] to [http_readheader] and [more] to
    [http_continue]; [uv_write] answers [written]; [uv_tcp_bind] and
    [uv_listen] answer [bound] and [listening]. *)
Definition scripted (header : ptr) (more written bound listening : Z)
  : environment nat :=
  fun (X : Type) (c : call X) (n : nat) =>
    match c in call X return X * nat with
    | http_readheader _ _ _ => (header, S n)
    | http_continue _ _ _ => (more, S n)
    | http_end _ => (tt, S n)
    | malloc _ => (4096, S n)
    | free _ => (tt, S n)
    | uv_default_loop => (64, S n)
    | uv_tcp_init _ _ => (tt, S n)
    | uv_ip4_addr _ port => ({| sin_addr := 0; sin_port := port |}, S n)
    | uv_tcp_bind _ _ => (bound, S n)
    | uv_listen _ _ => (listening, S n)
    | uv_run _ => (tt, S n)
    | uv_accept _ _ => (0, S n)
    | uv_read_start _ => (tt, S n)
    | uv_close _ => (tt, S n)
    | uv_write _ _ _ => (written, S n)
    | uv_strerror _ => (512, S n)
    | fprintf_stderr _ => (tt, S n)
    end.

(** The parser asks for more data after the first chunk (request 7)
    and completes on the second; writes are accepted. *)
Definition accepting : environment nat := scripted 7 0 0 0 0.

(** The same parser; every write is refused with -32 (EPIPE). *)
Definition refusing : environment nat := scripted 7 0 (-32) 0 0.

(** Address 8192 holds the bytes "OK", a NUL and "!". *)
Definition memory (p : ptr) : list byte :=
  if p =? 8192 then [x4f; x4b; x00; x21] else [].

(** A connection as [on_connection] leaves it. *)
Definition fresh : client_t :=
  {| self := 4096; handle := 4096; req := 4344; nim_request := NULL |}.

(** The same connection with request 7 pending. *)
Definition pending : client_t := set_nim_request 7 fresh.

(** A read buffer. *)
Definition chunk : uv_buf_t := {| base := 12288; len := 65536 |}.

End Sample.

(** An environment like [Sample.accepting] in which [uv_accept] fails
    with -11 (EAGAIN). *)
Definition nothing_to_accept : environment nat :=
  fun (X : Type) (c : call X) (n : nat) =>
    match c in call X return X * nat -> X * nat with
    | uv_accept _ _ => fun _ => (-11, S n)
    | _ => fun answer => answer
    end (Sample.accepting X c n).

(** A string of 2^32 + 2 letters "A", and a memory that holds it,
    followed by its NUL, at every address. *)
Abbreviation long_string := (repeat x41 (Z.to_nat 4294967298)).

Abbreviation long_memory := (fun _ : ptr => long_string ++ [x00]).

(** ** Running programs *)

Lemma count_app {A : Type} (p : A -> bool) (l1 l2 : list A) :
  count p (l1 ++ l2) = (count p l1 + count p l2)%nat.
Proof. unfold count. now rewrite filter_app, length_app. Qed.

Lemma count_cons {A : Type} (p : A -> bool) (a : A) (l : list A) :
  count p (a :: l) = ((if p a then 1 else 0) + count p l)%nat.
Proof. unfold count. cbn [filter]. now destruct (p a). Qed.

Section Runs.

Context {W : Type} (env : environment W).

Lemma run_bind {A B : Type} (m : prog A) (f : A -> prog B) (w : W) :
  run env (pbind m f) w =
  match run env m w with
  | Some r =>
      match run env (f (value r)) (world r) with
      | Some r' =>
          Some (mk_outcome (value r') (world r') (trace r ++ trace r'))
      | None => None
      end
  | None => None
  end.
Proof.
  revert w. induction m as [a | X c k IH | ]; intros w; cbn [pbind run].
- cbn [value world trace app].
  destruct (run env (f a) w) as [[v w' tr] | ]; reflexivity.
- destruct (env X c w) as [x w1]. rewrite IH.
  destruct (run env (k x) w1) as [[a w2 tr] | ]; [ | reflexivity].
  cbn [value world trace].
  destruct (run env (f a) w2) as [[b w3 tr'] | ]; reflexivity.
- reflexivity.
Qed.

End Runs.

(** ** Sample runs *)

Example strlen_of_sample : strlen_bytes (Sample.memory 8192) = Some 2.
Proof. reflexivity. Qed.

Example strlen_of_empty_string : strlen_bytes [x00; x41] = Some 0.
Proof. reflexivity. Qed.

Example strlen_without_nul : strlen_bytes [x41; x42] = None.
Proof. reflexivity. Qed.

(** A request split over two chunks: the first read stores request 7,
    the second completes it. *)
Example split_request :
  run Sample.accepting
      (deliver_all Sample.memory [Read 4 Sample.chunk; Read 9 Sample.chunk]
         Sample.fresh) 0%nat
  = Some {| value := Sample.fresh; world := 4%nat;
            trace := [Ev (http_readheader 4096 12288 4) 7;
                      Ev (free 12288) tt;
                      Ev (http_continue 7 12288 9) 0;
                      Ev (free 12288) tt] |}.
Proof. reflexivity. Qed.

(** The peer resets the connection in the middle of a request. *)
Example peer_reset :
  run Sample.accepting
      (deliver_all Sample.memory [Read 4 Sample.chunk; Read (-104) Sample.chunk]
         Sample.fresh) 0%nat
  = Some {| value := Sample.pending; world := 5%nat;
            trace := [Ev (http_readheader 4096 12288 4) 7;
                      Ev (free 12288) tt;
                      Ev (http_end 7) tt;
                      Ev (uv_close 4096) tt;
                      Ev (free 12288) tt] |}.
Proof. reflexivity. Qed.

(** A response whose write is accepted. *)
Example clean_response :
  run Sample.accepting (send_response Sample.memory Sample.fresh 8192) 0%nat
  = Some {| value := Sample.fresh; world := 1%nat;
            trace := [Ev (uv_write 4344 4096 [uv_buf_init 8192 2]) 0] |}.
Proof. reflexivity. Qed.

(** A failed bind and a failed listen do not stop [start_server]. *)
Example broken_startup :
  run (Sample.scripted 0 0 0 (-98) (-22)) (start_server 2048 1024 8080) 0%nat
  = Some {| value := {| loop := 64 |}; world := 10%nat;
            trace := [Ev uv_default_loop 64;
                      Ev (uv_tcp_init 64 2048) tt;
                      Ev (uv_ip4_addr 1024 8080)
                         {| sin_addr := 0; sin_port := 8080 |};
                      Ev (uv_tcp_bind 2048 {| sin_addr := 0; sin_port := 8080 |})
                         (-98);
                      Ev (uv_strerror (-98)) 512;
                      Ev (fprintf_stderr 512) tt;
                      Ev (uv_listen 2048 128) (-22);
                      Ev (uv_strerror (-22)) 512;
                      Ev (fprintf_stderr 512) tt;
                      Ev (uv_run 64) tt] |}.
Proof. reflexivity. Qed.

(** Unfolds a run call by call, naming the environment's answers and
    splitting on the tests of the program. *)
Ltac run_prog env :=
  repeat (cbn [run pbind bind ret Monad_prog perform value world trace negb];
          match goal with
          | |- context [env ?X ?c ?w] =>
              let x := fresh "x" in
              let w' := fresh "w" in
              destruct (env X c w) as [x w'] eqn:?
          | |- context [if ?b then _ else _] => destruct b eqn:?
          end);
  cbn [run pbind bind ret Monad_prog perform value world trace negb];
  repeat match goal with u : unit |- _ => destruct u end.

(** Turns the boolean tests left in the context into facts for [lia]. *)
Ltac tests :=
  unfold truthy, NULL in *;
  repeat match goal with
         | H : negb _ = true |- _ => apply negb_true_iff in H
         | H : negb _ = false |- _ => apply negb_false_iff in H
         | H : (_ =? _) = true |- _ => apply Z.eqb_eq in H
         | H : (_ =? _) = false |- _ => apply Z.eqb_neq in H
         | H : (_ <=? _) = true |- _ => apply Z.leb_le in H
         | H : (_ <=? _) = false |- _ => apply Z.leb_gt in H
         | H : (_ <? _) = true |- _ => apply Z.ltb_lt in H
         | H : (_ <? _) = false |- _ => apply Z.ltb_ge in H
         end.

(** ** The read handler *)

Section ReadHandler.

Context {W : Type} (env : environment W).

(** C4. A chunk ([nread >= 0]) read while no request is pending is
    handed to [http_readheader], whose answer, NULL or not, becomes
    [nim_request]; the only other call is the release of the buffer:
    nothing is finalized and no close is requested. *)
Theorem on_read_begins_request
    (w : W) (client : client_t) (nread : Z) (buf : uv_buf_t) :
  0 <= nread ->
  nim_request client = NULL ->
  exists (h : ptr) (r : outcome W client_t),
    run env (on_read client nread buf) w = Some r /\
    trace r = [Ev (http_readheader (self client) (base buf) nread) h;
               Ev (free (base buf)) tt] /\
    value r = set_nim_request h client /\
    nim_request (value r) = h /\
    count is_http_end (trace r) = 0%nat /\
    count (is_close_of (handle client)) (trace r) = 0%nat.
Proof.
  intros Hn Hq. unfold on_read.
  rewrite (proj2 (Z.leb_le 0 nread) Hn), Hq, Z.eqb_refl.
  run_prog env. eexists; eexists. repeat split.
Qed.

(** C5. A chunk ([nread >= 0]) read while a request is pending is
    handed to [http_continue] with that request; an answer of 0 (no
    more data needed) resets [nim_request] to NULL and any other
    answer leaves the client as it was; [http_readheader] is not
    called and no close is requested. *)
Theorem on_read_continues_request
    (w : W) (client : client_t) (nread : Z) (buf : uv_buf_t) :
  0 <= nread ->
  nim_request client <> NULL ->
  exists (more : Z) (r : outcome W client_t),
    run env (on_read client nread buf) w = Some r /\
    trace r = [Ev (http_continue (nim_request client) (base buf) nread) more;
               Ev (free (base buf)) tt] /\
    (more = 0 -> value r = set_nim_request NULL client) /\
    (more <> 0 -> value r = client) /\
    count (is_close_of (handle client)) (trace r) = 0%nat.
Proof.
  intros Hn Hq. unfold on_read.
  rewrite (proj2 (Z.leb_le 0 nread) Hn), (proj2 (Z.eqb_neq _ _) Hq).
  run_prog env; tests; eexists; eexists; repeat split;
    intros; congruence.
Qed.

(** C6. A read that reports an error or the end of the stream
    ([nread < 0]) finalizes the pending request, if there is one, with
    [http_end], and then, pending request or not, requests the close
    of the client's handle. *)
Theorem on_read_error_tears_down
    (w : W) (client : client_t) (nread : Z) (buf : uv_buf_t) :
  nread < 0 ->
  exists r : outcome W client_t,
    run env (on_read client nread buf) w = Some r /\
    trace r =
      (if nim_request client =? NULL then []
       else [Ev (http_end (nim_request client)) tt])
      ++ [Ev (uv_close (handle client)) tt; Ev (free (base buf)) tt].
Proof.
  intros Hn. unfold on_read, end_response.
  rewrite (proj2 (Z.leb_gt 0 nread) Hn).
  run_prog env; eexists; split; try reflexivity;
    match goal with H : negb _ = _ |- _ => revert H end;
    destruct (nim_request client =? NULL); cbn; congruence.
Qed.

(** C7. Whatever the read event and the state of the client, the read
    handler returns, and [free] is called exactly once in it: on the
    buffer of the event, as the last call. *)
Theorem on_read_frees_buffer_once
    (w : W) (client : client_t) (nread : Z) (buf : uv_buf_t) :
  exists (r : outcome W client_t) (before : list event),
    run env (on_read client nread buf) w = Some r /\
    trace r = before ++ [Ev (free (base buf)) tt] /\
    count is_free before = 0%nat /\
    count is_free (trace r) = 1%nat.
Proof.
  unfold on_read, end_response.
  run_prog env;
    (eexists; eexists; split; [reflexivity | ]);
    cbn [trace];
    (split;
     [ match goal with
       | |- [?a; ?b] = _ => exact (eq_refl ([a] ++ [b]))
       | |- [?a; ?b; ?c] = _ => exact (eq_refl ([a; b] ++ [c]))
       end
     | split; reflexivity ]).
Qed.

(** C9. On a read error ([nread < 0]) with a request pending, the
    handler finalizes the request and requests the close, and leaves
    the client struct as it was: [nim_request] still holds the
    finalized request and is not reset to NULL. *)
Theorem on_read_error_keeps_request
    (w : W) (client : client_t) (nread : Z) (buf : uv_buf_t) :
  nread < 0 ->
  nim_request client <> NULL ->
  exists r : outcome W client_t,
    run env (on_read client nread buf) w = Some r /\
    value r = client /\
    nim_request (value r) <> NULL /\
    trace r = [Ev (http_end (nim_request (value r))) tt;
               Ev (uv_close (handle client)) tt;
               Ev (free (base buf)) tt].
Proof.
  intros Hn Hq. unfold on_read, end_response.
  rewrite (proj2 (Z.leb_gt 0 nread) Hn), (proj2 (Z.eqb_neq _ _) Hq).
  run_prog env. eexists. repeat split. exact Hq.
Qed.

End ReadHandler.

(** ** The response dispatcher *)

Lemma strlen_bytes_prefix (pre post : list byte) :
  Forall (fun b => b <> x00) pre ->
  strlen_bytes (pre ++ x00 :: post) = Some (Z.of_nat (length pre)).
Proof.
  induction 1 as [ | b pre Hb _ IH]; cbn [app strlen_bytes length].
  - reflexivity.
  - destruct (Byte.eqb b x00) eqn:E.
    + apply Byte.byte_dec_bl in E. contradiction.
    + rewrite IH. cbn [option_map]. f_equal. lia.
Qed.

Lemma strlen_bytes_no_nul (region : list byte) :
  Forall (fun b => b <> x00) region -> strlen_bytes region = None.
Proof.
  induction 1 as [ | b region Hb _ IH]; cbn [strlen_bytes].
  - reflexivity.
  - destruct (Byte.eqb b x00) eqn:E.
    + apply Byte.byte_dec_bl in E. contradiction.
    + now rewrite IH.
Qed.

Section Dispatcher.

Context {W : Type} (env : environment W) (mem : ptr -> list byte).

(** The run of [send_response] on a NUL-terminated buffer, in terms of
    the answer of [uv_write]. *)
Lemma run_send_response (w : W) (client : client_t) (buffer : ptr) (n : Z) :
  strlen_bytes (mem buffer) = Some n ->
  exists (r0 : Z) (r : outcome W client_t),
    run env (send_response mem client buffer) w = Some r /\
    value r = client /\
    (r0 = 0 ->
     trace r = [Ev (uv_write (req client) (handle client)
                             [uv_buf_init buffer n]) r0]) /\
    (r0 <> 0 -> exists msg : ptr,
     trace r =
       [Ev (uv_write (req client) (handle client) [uv_buf_init buffer n]) r0;
        Ev (uv_strerror r0) msg; Ev (fprintf_stderr msg) tt]
       ++ (if nim_request client =? NULL then []
           else [Ev (http_end (nim_request client)) tt])
       ++ [Ev (uv_close (handle client)) tt]).
Proof.
  intros Hlen. unfold send_response, strlen, log_error. rewrite Hlen.
  cbn [bind ret Monad_prog pbind perform run].
  destruct (env Z (uv_write (req client) (handle client)
                            [uv_buf_init buffer n]) w) as [r0 w1] eqn:Hw.
  exists r0. unfold truthy.
  destruct (Z.eqb_spec r0 0) as [E | E]; cbn [negb].
  - eexists. split; [reflexivity | ]. split; [reflexivity | ].
    split; [reflexivity | contradiction].
  - run_prog env; eexists;
      (split; [reflexivity | ]); (split; [reflexivity | ]);
      (split; [contradiction | ]); intros _;
      match goal with
      | H : env ptr (uv_strerror _) _ = (?m, _) |- _ => exists m
      end; cbn [trace];
      first [ reflexivity
            | match goal with
              | H : negb _ = _ |- _ => cbn in H; discriminate H
              end ].
Qed.

(** C3, as the code has it. When [uv_write] refuses the submission
    with the answer [r0], [send_response] asks [uv_strerror] for the
    message of [r0] and writes that message, one line, to the
    diagnostic stream; then the pending request, if there is one, is
    finalized with [http_end], and the close of the handle is
    requested; [nim_request] is not cleared: the client struct is left
    as it was. When [uv_write] accepts the submission, nothing else is
    called and the client struct is left as it was. *)
Theorem send_response_failure_keeps_request
    (w : W) (client : client_t) (buffer : ptr) (n : Z) :
  strlen_bytes (mem buffer) = Some n ->
  exists (r0 : Z) (r : outcome W client_t),
    run env (send_response mem client buffer) w = Some r /\
    hd_error (trace r) =
      Some (Ev (uv_write (req client) (handle client)
                         [uv_buf_init buffer n]) r0) /\
    value r = client /\
    (r0 = 0 -> length (trace r) = 1%nat) /\
    (r0 <> 0 ->
     count is_log (trace r) = 1%nat /\
     count is_http_end (trace r)
       = (if nim_request client =? NULL then 0%nat else 1%nat) /\
     count (is_http_end_of (nim_request client)) (trace r)
       = (if nim_request client =? NULL then 0%nat else 1%nat) /\
     count (is_close_of (handle client)) (trace r) = 1%nat /\
     last (trace r) (Ev (uv_close (handle client)) tt)
       = Ev (uv_close (handle client)) tt /\
     exists msg : ptr,
       trace r =
         [Ev (uv_write (req client) (handle client) [uv_buf_init buffer n]) r0;
          Ev (uv_strerror r0) msg; Ev (fprintf_stderr msg) tt]
         ++ (if nim_request client =? NULL then []
             else [Ev (http_end (nim_request client)) tt])
         ++ [Ev (uv_close (handle client)) tt]).
Proof.
  intros Hlen.
  destruct (run_send_response w client buffer n Hlen)
    as (r0 & r & Hrun & Hval & Hok & Hfail).
  exists r0, r. split; [exact Hrun | ].
  destruct (Z.eq_dec r0 0) as [E | E].
  - rewrite (Hok E). split; [reflexivity | ]. split; [exact Hval | ].
    split; [reflexivity | ]. intros N. contradiction.
  - destruct (Hfail E) as [msg ->].
    split; [reflexivity | ]. split; [exact Hval | ].
    split; [contradiction | ]. intros _.
    destruct (nim_request client =? NULL) eqn:Q;
      cbn [app count filter is_log is_http_end is_http_end_of is_close_of
           length last];
      rewrite ?Q, ?Z.eqb_refl; repeat split; try reflexivity;
      exists msg; reflexivity.
Qed.

(** C10, as the code has it. On a buffer whose bytes before the first
    NUL are [pre], [send_response] submits one write of one descriptor.
    Its length is the length of [pre] reduced modulo 2^32, the
    [unsigned int] that [uv_buf_init] takes, and it designates that many
    leading bytes of [pre]: never the NUL or a byte after it. When
    [pre] is shorter than 2^32 bytes the length is the length of [pre]
    and the bytes designated are exactly [pre]; nothing for a buffer
    that starts with NUL. *)
Theorem send_response_writes_strlen
    (w : W) (client : client_t) (buffer : ptr) (pre post : list byte) :
  mem buffer = pre ++ x00 :: post ->
  Forall (fun b => b <> x00) pre ->
  exists (r0 : Z) (r : outcome W client_t) (rest : list event),
    run env (send_response mem client buffer) w = Some r /\
    trace r = Ev (uv_write (req client) (handle client)
                           [{| base := buffer;
                               len := Z.of_nat (length pre) mod 2 ^ 32 |}]) r0
              :: rest /\
    count is_write rest = 0%nat /\
    designated mem {| base := buffer;
                      len := Z.of_nat (length pre) mod 2 ^ 32 |}
      = firstn (Z.to_nat (Z.of_nat (length pre) mod 2 ^ 32)) pre /\
    (Z.of_nat (length pre) < 2 ^ 32 ->
     Z.of_nat (length pre) mod 2 ^ 32 = Z.of_nat (length pre) /\
     designated mem {| base := buffer;
                       len := Z.of_nat (length pre) mod 2 ^ 32 |} = pre).
Proof.
  intros Hmem Hpre.
  assert (Hlen : strlen_bytes (mem buffer) = Some (Z.of_nat (length pre)))
    by (rewrite Hmem; now apply strlen_bytes_prefix).
  destruct (run_send_response w client buffer _ Hlen)
    as (r0 & r & Hrun & _ & Hok & Hfail).
  unfold uv_buf_init in Hok, Hfail.
  set (m := Z.of_nat (length pre) mod 2 ^ 32) in *.
  assert (Hm : 0 <= m <= Z.of_nat (length pre)).
  { subst m. split.
    - apply Z.mod_pos_bound. reflexivity.
    - apply Z.mod_le; [apply Nat2Z.is_nonneg | reflexivity]. }
  assert (Hdes : designated mem {| base := buffer; len := m |}
                 = firstn (Z.to_nat m) pre).
  { unfold designated. cbn [len base]. rewrite Hmem, firstn_app.
    replace (Z.to_nat m - length pre)%nat with 0%nat by lia.
    cbn [firstn]. apply app_nil_r. }
  assert (Hsmall : Z.of_nat (length pre) < 2 ^ 32 ->
                   m = Z.of_nat (length pre) /\
                   designated mem {| base := buffer; len := m |} = pre).
  { intros Hlt.
    assert (E : m = Z.of_nat (length pre))
      by (subst m; apply Z.mod_small; split;
          [apply Nat2Z.is_nonneg | exact Hlt]).
    split; [exact E | ].
    rewrite Hdes, E, Nat2Z.id. apply firstn_all. }
  exists r0, r. destruct (Z.eq_dec r0 0) as [E | E].
  - exists []. rewrite (Hok E).
    split; [exact Hrun | ]. split; [reflexivity | ].
    split; [reflexivity | ]. split; assumption.
  - destruct (Hfail E) as [msg ->]. eexists.
    split; [exact Hrun | ]. split; [reflexivity | ].
    split; [ | split; assumption].
    destruct (nim_request client =? NULL); reflexivity.
Qed.

(** A buffer with no NUL makes [strlen] read past its end: the model
    gives [send_response] no behaviour there. *)
Lemma send_response_unterminated (w : W) (client : client_t) (buffer : ptr) :
  Forall (fun b => b <> x00) (mem buffer) ->
  run env (send_response mem client buffer) w = None.
Proof.
  intros H. unfold send_response, strlen.
  now rewrite (strlen_bytes_no_nul _ H).
Qed.

End Dispatcher.

(** ** Startup *)

Section Startup.

Context {W : Type} (env : environment W) (server : ptr).

Lemma run_log_if_failed (r : Z) (w : W) :
  exists (log : list event) (w' : W),
    run env (if truthy r then log_error r else Ret tt) w
      = Some (mk_outcome tt w' log) /\
    logged r log.
Proof.
  unfold logged, log_error. run_prog env; tests; do 2 eexists;
    (split; [reflexivity | ]); [right | left]; eauto.
Qed.

(** C8. [start_server] always runs to the end: it binds, logs the
    error if the bind failed, listens all the same with backlog 128,
    logs the error if the listen failed, and enters the run loop all
    the same; what it leaves to its caller does not depend on either
    answer. *)
Theorem start_server_continues_after_failure (w : W) (ip : ptr) (port : Z) :
  exists (l : ptr) (address : sockaddr_in) (r1 r2 : Z)
         (log1 log2 : list event) (r : outcome W globals),
    run env (start_server server ip port) w = Some r /\
    value r = {| loop := l |} /\
    trace r =
      [Ev uv_default_loop l; Ev (uv_tcp_init l server) tt;
       Ev (uv_ip4_addr ip port) address;
       Ev (uv_tcp_bind server address) r1]
      ++ log1
      ++ [Ev (uv_listen server 128) r2]
      ++ log2
      ++ [Ev (uv_run l) tt] /\
    logged r1 log1 /\
    logged r2 log2.
Proof.
  unfold start_server. cbn [bind ret Monad_prog pbind perform run].
  destruct (env _ uv_default_loop w) as [l w1].
  destruct (env _ (uv_tcp_init l server) w1) as [[] w2].
  destruct (env _ (uv_ip4_addr ip port) w2) as [address w3].
  destruct (env _ (uv_tcp_bind server address) w3) as [r1 w4].
  rewrite run_bind.
  destruct (run_log_if_failed r1 w4) as (log1 & w5 & -> & L1).
  cbn [value world trace run pbind].
  destruct (env _ (uv_listen server 128) w5) as [r2 w6].
  rewrite run_bind.
  destruct (run_log_if_failed r2 w6) as (log2 & w7 & -> & L2).
  cbn [value world trace run pbind].
  destruct (env _ (uv_run l) w7) as [[] w8].
  exists l, address, r1, r2, log1, log2. eexists.
  split; [reflexivity | ]. cbn [value trace].
  repeat split; assumption.
Qed.

End Startup.

(** ** A connection over its lifetime *)

Section Lifetime.

Context {W : Type} (env : environment W) (mem : ptr -> list byte).

(** One delivery: the handle is kept; a close is requested exactly when
    the input is a read error, an [end_response], or a refused write;
    [http_end] is called only before a close, and only on the request
    that was pending. *)
Lemma run_deliver (w : W) (client : client_t) (i : input)
      (r : outcome W client_t) :
  run env (deliver mem i client) w = Some r ->
  handle (value r) = handle client /\
  count (is_close_of (handle client)) (trace r)
    = ((if is_read_error i then 1 else 0)
       + (if is_end_response i then 1 else 0)
       + count is_failed_write (trace r))%nat /\
  (count (is_close_of (handle client)) (trace r) <= 1)%nat /\
  (count is_http_end (trace r)
     <= count (is_close_of (handle client)) (trace r))%nat /\
  count is_http_end (trace r)
    = count (is_http_end_of (nim_request client)) (trace r).
Proof.
  destruct i as [nread buf | buffer | ];
    cbn [deliver is_read_error is_end_response].
  - unfold on_read, end_response. run_prog env;
      intros H; injection H as <-; cbn [value trace];
      unfold count;
      cbn [filter is_close_of is_failed_write is_http_end is_http_end_of];
      rewrite ?Z.eqb_refl; tests;
      repeat match goal with
             | |- context [?a <? ?b] =>
                 destruct (Z.ltb_spec a b); try lia
             end;
      cbn [length]; repeat split; lia.
  - unfold send_response, strlen, log_error.
    destruct (strlen_bytes (mem buffer)) as [n | ];
      [ | cbn [bind Monad_prog pbind run]; discriminate].
    run_prog env;
      intros H; injection H as <-; cbn [value trace];
      unfold count;
      cbn [filter is_close_of is_failed_write is_http_end is_http_end_of];
      rewrite ?Z.eqb_refl;
      repeat match goal with H : truthy _ = _ |- _ => rewrite H end;
      cbn [length]; repeat split; lia.
  - unfold end_response. run_prog env.
    intros H; injection H as <-; cbn [value trace].
    unfold count.
    cbn [filter is_close_of is_failed_write is_http_end is_http_end_of].
    rewrite ?Z.eqb_refl. cbn [length]. repeat split; lia.
Qed.

(** Over a sequence of deliveries the counts add up. *)
Lemma run_deliver_all (ins : list input) :
  forall (w : W) (client : client_t) (r : outcome W client_t),
    run env (deliver_all mem ins client) w = Some r ->
    handle (value r) = handle client /\
    count (is_close_of (handle client)) (trace r)
      = (count is_read_error ins + count is_end_response ins
         + count is_failed_write (trace r))%nat /\
    (count (is_close_of (handle client)) (trace r) <= length ins)%nat /\
    (count is_http_end (trace r)
       <= count (is_close_of (handle client)) (trace r))%nat.
Proof.
  induction ins as [ | i rest IH]; intros w client r;
    cbn [deliver_all bind ret Monad_prog].
  - cbn [run]. intros H; injection H as <-. cbn. repeat split; lia.
  - rewrite run_bind.
    destruct (run env (deliver mem i client) w) as [r1 | ] eqn:R1;
      [ | discriminate].
    destruct (run env (deliver_all mem rest (value r1)) (world r1))
      as [r2 | ] eqn:R2; [ | discriminate].
    intros H; injection H as <-. cbn [value trace].
    destruct (run_deliver _ _ _ _ R1) as (Hh1 & Hc1 & Hle1 & Hf1 & _).
    destruct (IH _ _ _ R2) as (Hh2 & Hc2 & Hle2 & Hf2).
    rewrite Hh1 in Hh2, Hc2, Hle2, Hf2.
    rewrite !count_app, !count_cons. cbn [length].
    repeat split; [congruence | lia ..].
Qed.

(** C1, as the code has it. Every delivered event requests the close
    of the connection's handle at most once: exactly once for a read
    error, an [end_response] and a refused write, and not at all
    otherwise. No state of the connection holds a second request
    back: over a sequence of events the close is requested once per
    such event. *)
Theorem close_requested_once_per_trigger
    (w : W) (client : client_t) (ins : list input)
    (r : outcome W client_t) :
  run env (deliver_all mem ins client) w = Some r ->
  count (is_close_of (handle client)) (trace r)
    = (count is_read_error ins + count is_end_response ins
       + count is_failed_write (trace r))%nat /\
  (count (is_close_of (handle client)) (trace r) <= length ins)%nat.
Proof.
  intros H. destruct (run_deliver_all _ _ _ _ H) as (_ & Hc & Hle & _).
  split; assumption.
Qed.

(** C2, as the code has it. One delivered event calls [http_end] at
    most once, and only on the request pending when it arrives; when
    a read error or a refused write tears the connection down with a
    request pending, [http_end] is called on it exactly once, right
    before the close is requested, whereas [end_response] requests the
    close without calling it. Over a sequence of events [http_end] is
    called at most as often as the close is requested. *)
Theorem http_end_once_per_teardown :
  (forall (w : W) (client : client_t) (i : input) (r : outcome W client_t),
      run env (deliver mem i client) w = Some r ->
      (count is_http_end (trace r) <= 1)%nat /\
      count is_http_end (trace r)
        = count (is_http_end_of (nim_request client)) (trace r) /\
      (is_end_response i = true -> count is_http_end (trace r) = 0%nat) /\
      (is_end_response i = false ->
       nim_request client <> NULL ->
       count (is_close_of (handle client)) (trace r) = 1%nat ->
       exists before after : list event,
         trace r = before
                   ++ [Ev (http_end (nim_request client)) tt;
                       Ev (uv_close (handle client)) tt]
                   ++ after /\
         count is_http_end before = 0%nat /\
         count is_http_end after = 0%nat)) /\
  (forall (w : W) (client : client_t) (ins : list input)
          (r : outcome W client_t),
      run env (deliver_all mem ins client) w = Some r ->
      (count is_http_end (trace r)
         <= count (is_close_of (handle client)) (trace r))%nat).
Proof.
  split.
  - intros w client i r H.
    destruct (run_deliver _ _ _ _ H) as (_ & _ & Hle & Hf & Hq).
    split; [lia | ]. split; [exact Hq | ].
    revert H. clear Hle Hf Hq.
    destruct i as [nread buf | buffer | ]; cbn [deliver is_end_response].
    + unfold on_read, end_response.
      run_prog env; intros H; injection H as <-; cbn [value trace];
        (split; [discriminate | ]); intros _ Hq;
        unfold count; cbn [filter is_close_of]; rewrite ?Z.eqb_refl;
        cbn [length]; intros Hc; try discriminate Hc;
        tests; try contradiction.
      exists [], [Ev (free (base buf)) tt]. repeat split.
    + unfold send_response, strlen, log_error.
      destruct (strlen_bytes (mem buffer)) as [n | ];
        [ | cbn [bind Monad_prog pbind run]; discriminate].
      run_prog env; intros H; injection H as <-; cbn [value trace];
        (split; [discriminate | ]); intros _ Hq;
        unfold count; cbn [filter is_close_of]; rewrite ?Z.eqb_refl;
        cbn [length]; intros Hc; try discriminate Hc;
        tests; try contradiction.
      eexists [_; _; _], []. repeat split.
    + unfold end_response. run_prog env.
      intros H; injection H as <-; cbn [value trace].
      split; [reflexivity | discriminate].
  - intros w client ins r H.
    destruct (run_deliver_all _ _ _ _ H) as (_ & _ & _ & Hf). exact Hf.
Qed.

End Lifetime.

(** ** The theorems at work on the sample connection *)

Lemma close_requested_once_per_trigger_sample :
  exists r : outcome nat client_t,
    run Sample.refusing
        (deliver_all Sample.memory
           [Read 4 Sample.chunk; SendResponse 8192; EndResponse] Sample.fresh)
        0%nat = Some r /\
    count (is_close_of 4096) (trace r)
      = (0 + 1 + count is_failed_write (trace r))%nat /\
    (count (is_close_of 4096%Z) (trace r) <= 3)%nat.
Proof.
  eexists. split; [reflexivity | ].
  apply (close_requested_once_per_trigger Sample.refusing Sample.memory 0%nat
           Sample.fresh [Read 4 Sample.chunk; SendResponse 8192; EndResponse]
           _ eq_refl).
Defined.

Lemma http_end_once_per_teardown_sample :
  exists r : outcome nat client_t,
    run Sample.refusing
        (deliver Sample.memory (Read (-4095) Sample.chunk) Sample.pending)
        0%nat = Some r /\
    (count is_http_end (trace r) <= 1)%nat /\
    exists before after : list event,
      trace r = before ++ [Ev (http_end 7) tt; Ev (uv_close 4096) tt] ++ after.
Proof.
  eexists. split; [reflexivity | ].
  destruct (proj1 (http_end_once_per_teardown Sample.refusing Sample.memory)
              0%nat Sample.pending (Read (-4095) Sample.chunk) _ eq_refl)
    as (Hle & _ & _ & Hex).
  split; [exact Hle | ].
  destruct (Hex eq_refl ltac:(discriminate) eq_refl)
    as (before & after & Htr & _).
  exists before, after. exact Htr.
Defined.

Lemma send_response_failure_keeps_request_sample :
  exists (r0 : Z) (r : outcome nat client_t),
    run Sample.refusing (send_response Sample.memory Sample.pending 8192) 0%nat
      = Some r /\
    hd_error (trace r)
      = Some (Ev (uv_write 4344 4096 [uv_buf_init 8192 2]) r0) /\
    value r = Sample.pending /\
    (r0 <> 0 -> exists msg : ptr,
        In (Ev (uv_strerror r0) msg) (trace r) /\
        In (Ev (fprintf_stderr msg) tt) (trace r)).
Proof.
  destruct (send_response_failure_keeps_request Sample.refusing Sample.memory
              0%nat Sample.pending 8192 2 eq_refl)
    as (r0 & r & Hrun & Hhd & Hval & _ & Hfail).
  exists r0, r. split; [exact Hrun | ]. split; [exact Hhd | ].
  split; [exact Hval | ].
  intros E. destruct (Hfail E) as (_ & _ & _ & _ & _ & msg & ->).
  exists msg. cbn [In app]. tauto.
Defined.

Lemma on_read_begins_request_sample :
  exists (h : ptr) (r : outcome nat client_t),
    run Sample.accepting (on_read Sample.fresh 4 Sample.chunk) 0%nat = Some r /\
    trace r = [Ev (http_readheader 4096 12288 4) h; Ev (free 12288) tt] /\
    nim_request (value r) = h.
Proof.
  destruct (on_read_begins_request Sample.accepting 0%nat Sample.fresh 4
              Sample.chunk ltac:(lia) eq_refl)
    as (h & r & Hrun & Htr & _ & Hq & _).
  exists h, r. repeat split; assumption.
Defined.

Lemma on_read_continues_request_sample :
  exists (more : Z) (r : outcome nat client_t),
    run Sample.accepting (on_read Sample.pending 0 Sample.chunk) 0%nat
      = Some r /\
    trace r = [Ev (http_continue 7 12288 0) more; Ev (free 12288) tt] /\
    (more = 0 -> value r = Sample.fresh).
Proof.
  destruct (on_read_continues_request Sample.accepting 0%nat Sample.pending 0
              Sample.chunk ltac:(lia) ltac:(discriminate))
    as (more & r & Hrun & Htr & Hdone & _).
  exists more, r. repeat split; assumption.
Defined.

Lemma on_read_error_tears_down_sample :
  exists r : outcome nat client_t,
    run Sample.accepting (on_read Sample.pending (-4095) Sample.chunk) 0%nat
      = Some r /\
    trace r = [Ev (http_end 7) tt; Ev (uv_close 4096) tt; Ev (free 12288) tt].
Proof.
  exact (on_read_error_tears_down Sample.accepting 0%nat Sample.pending
           (-4095) Sample.chunk ltac:(lia)).
Defined.

Lemma on_read_error_keeps_request_sample :
  exists r : outcome nat client_t,
    run Sample.accepting (on_read Sample.pending (-4095) Sample.chunk) 0%nat
      = Some r /\
    value r = Sample.pending /\
    nim_request (value r) <> NULL.
Proof.
  destruct (on_read_error_keeps_request Sample.accepting 0%nat Sample.pending
              (-4095) Sample.chunk ltac:(lia) ltac:(discriminate))
    as (r & Hrun & Hval & Hq & _).
  exists r. repeat split; assumption.
Defined.

Lemma send_response_writes_strlen_sample :
  exists (r0 : Z) (r : outcome nat client_t) (rest : list event),
    run Sample.accepting (send_response Sample.memory Sample.fresh 8192) 0%nat
      = Some r /\
    trace r = Ev (uv_write 4344 4096 [{| base := 8192; len := 2 |}]) r0
              :: rest /\
    designated Sample.memory {| base := 8192; len := 2 |} = [x4f; x4b].
Proof.
  destruct (send_response_writes_strlen Sample.accepting Sample.memory 0%nat
              Sample.fresh 8192 [x4f; x4b] [x21] eq_refl
              ltac:(repeat constructor; discriminate))
    as (r0 & r & rest & Hrun & Htr & _ & _ & Hsmall).
  exists r0, r, rest. split; [exact Hrun | ]. split; [exact Htr | ].
  exact (proj2 (Hsmall eq_refl)).
Defined.

(** ** Where the code departs from the specification *)

(** C1 as stated fails: a response whose write is refused, followed by
    the [end_response] that ends it, requests the close of the same
    handle twice. *)
Lemma close_requested_twice :
  exists r : outcome nat client_t,
    run Sample.refusing
        (deliver_all Sample.memory [SendResponse 8192; EndResponse]
           Sample.fresh)
        0%nat = Some r /\
    count (is_close_of (handle Sample.fresh)) (trace r) = 2%nat /\
    ~ (count (is_close_of (handle Sample.fresh)) (trace r) <= 1)%nat.
Proof.
  eexists. split; [reflexivity | ]. split; [reflexivity | ].
  vm_compute. intros H. inversion H as [ | ? H1]. inversion H1.
Qed.

(** C2 as stated fails both ways: two refused writes while request 7 is
    pending finalize it twice, and an [end_response] while it is pending
    requests the close without finalizing it. *)
Lemma http_end_twice_or_never :
  (exists r : outcome nat client_t,
      run Sample.refusing
          (deliver_all Sample.memory
             [Read 4 Sample.chunk; SendResponse 8192; SendResponse 8192]
             Sample.fresh)
          0%nat = Some r /\
      count (is_http_end_of 7) (trace r) = 2%nat /\
      ~ (count (is_http_end_of 7%Z) (trace r) <= 1)%nat) /\
  (exists r : outcome nat client_t,
      run Sample.accepting
          (deliver_all Sample.memory [Read 4 Sample.chunk; EndResponse]
             Sample.fresh)
          0%nat = Some r /\
      nim_request (value r) = 7 /\
      count (is_close_of (handle Sample.fresh)) (trace r) = 1%nat /\
      count is_http_end (trace r) = 0%nat).
Proof.
  split.
  - eexists. split; [reflexivity | ]. split; [reflexivity | ].
    vm_compute. intros H. inversion H as [ | ? H1]. inversion H1.
  - eexists. repeat split.
Qed.

(** C3 as stated fails: after a refused write with request 7 pending,
    [nim_request] still holds 7. *)
Lemma send_response_failure_leaves_request_set :
  exists r : outcome nat client_t,
    run Sample.refusing (send_response Sample.memory Sample.pending 8192) 0%nat
      = Some r /\
    count is_failed_write (trace r) = 1%nat /\
    count (is_http_end_of 7) (trace r) = 1%nat /\
    nim_request (value r) = 7 /\
    nim_request (value r) <> NULL.
Proof.
  eexists. split; [reflexivity | ]. repeat split. discriminate.
Qed.

(** A string of [n] letters "A", for [n] = 2^32 + 2: [strlen] counts
    them all, [send_response] hands [uv_write] the length 2, and the two
    bytes that descriptor designates are not the string. *)
Lemma send_response_truncates (n : nat) :
  Z.of_nat n = 4294967298 ->
  exists r : outcome nat client_t,
    strlen_bytes (repeat x41 n ++ [x00]) = Some 4294967298 /\
    run Sample.accepting
        (send_response (fun _ : ptr => repeat x41 n ++ [x00]) Sample.fresh 8192)
        0%nat = Some r /\
    trace r = [Ev (uv_write 4344 4096 [{| base := 8192; len := 2 |}]) 0] /\
    designated (fun _ : ptr => repeat x41 n ++ [x00])
               {| base := 8192; len := 2 |}
      <> repeat x41 n.
Proof.
  intros Hn.
  assert (Hs : strlen_bytes (repeat x41 n ++ [x00]) = Some 4294967298).
  { rewrite strlen_bytes_prefix.
    - now rewrite repeat_length, Hn.
    - apply Forall_forall. intros b Hb. apply repeat_spec in Hb.
      subst b. discriminate. }
  eexists. split; [exact Hs | ]. split; [ | split].
  - unfold send_response, strlen. rewrite Hs. reflexivity.
  - reflexivity.
  - intros E. apply (f_equal (@length byte)) in E.
    unfold designated in E. cbn [len base] in E.
    rewrite repeat_length in E.
    pose proof (firstn_le_length (Z.to_nat 2) (repeat x41 n ++ [x00])) as Hle.
    lia.
Qed.

(** C10 as stated fails: for the string of 2^32 + 2 letters the length
    handed to [uv_write] is 2, not 4294967298, and the two bytes the
    descriptor designates are not the string. *)
Lemma send_response_truncates_long_string :
  exists r : outcome nat client_t,
    strlen_bytes (long_string ++ [x00]) = Some 4294967298 /\
    run Sample.accepting (send_response long_memory Sample.fresh 8192) 0%nat
      = Some r /\
    trace r = [Ev (uv_write 4344 4096 [{| base := 8192; len := 2 |}]) 0] /\
    designated long_memory {| base := 8192; len := 2 |} <> long_string.
Proof.
  exact (send_response_truncates (Z.to_nat 4294967298)
           (Z2Nat.id 4294967298 (proj1 (Z.leb_le 0 4294967298) eq_refl))).
Qed.

(** ** The acceptor *)

Section Acceptor.

Context {W : Type} (env : environment W).
Context (server sizeof_client_t offsetof_handle offsetof_req : Z).

(** The run of [on_connection] when [malloc] gives memory, in terms of
    the answer of [uv_accept]. *)
Lemma run_on_connection (w : W) (g : globals) :
  fst (env ptr (malloc sizeof_client_t) w) <> NULL ->
  exists (p : ptr) (r0 : Z) (r : outcome W (option client_t)),
    run env (on_connection server sizeof_client_t offsetof_handle
                          offsetof_req g) w = Some r /\
    p = fst (env ptr (malloc sizeof_client_t) w) /\
    trace r =
      [Ev (malloc sizeof_client_t) p;
       Ev (uv_tcp_init (loop g) (p + offsetof_handle)) tt;
       Ev (uv_accept server (p + offsetof_handle)) r0]
      ++ (if r0 =? 0 then [Ev (uv_read_start (p + offsetof_handle)) tt]
          else [Ev (free p) tt]) /\
    value r =
      (if r0 =? 0
       then Some {| self := p; handle := p + offsetof_handle;
                    req := p + offsetof_req; nim_request := NULL |}
       else None).
Proof.
  unfold on_connection. cbn [bind ret Monad_prog pbind perform run].
  destruct (env ptr (malloc sizeof_client_t) w) as [p w1] eqn:Hm.
  cbn [fst]. intros Hp. rewrite (proj2 (Z.eqb_neq _ _) Hp).
  cbn [handle self pbind run].
  destruct (env unit (uv_tcp_init (loop g) (p + offsetof_handle)) w1)
    as [[] w2].
  destruct (env Z (uv_accept server (p + offsetof_handle)) w2) as [r0 w3].
  exists p, r0. unfold truthy.
  destruct (r0 =? 0); cbn [negb pbind run].
  - destruct (env unit (uv_read_start (p + offsetof_handle)) w3) as [[] w4].
    eexists. repeat split.
  - destruct (env unit (free p) w3) as [[] w4].
    eexists. repeat split.
Qed.

(** X1. When [uv_accept] fails, [on_connection] frees the client struct
    it allocated, once and as its last call, starts no read on it and
    hands no client on. *)
Theorem on_connection_accept_failure (w : W) (g : globals) :
  fst (env ptr (malloc sizeof_client_t) w) <> NULL ->
  exists (p : ptr) (r0 : Z) (r : outcome W (option client_t)),
    run env (on_connection server sizeof_client_t offsetof_handle
                          offsetof_req g) w = Some r /\
    In (Ev (malloc sizeof_client_t) p) (trace r) /\
    In (Ev (uv_accept server (p + offsetof_handle)) r0) (trace r) /\
    (r0 <> 0 ->
     value r = None /\
     freed (trace r) = [p] /\
     last (trace r) (Ev (free p) tt) = Ev (free p) tt /\
     count is_read_start (trace r) = 0%nat).
Proof.
  intros Hp.
  destruct (run_on_connection w g Hp) as (p & r0 & r & Hrun & _ & Htr & Hv).
  exists p, r0, r. split; [exact Hrun | ]. rewrite Htr, Hv.
  split; [cbn; tauto | ]. split; [cbn; tauto | ].
  intros Hr. rewrite (proj2 (Z.eqb_neq _ _) Hr). repeat split.
Qed.

(** X2. When [uv_accept] succeeds, [on_connection] hands on a client
    with no request pending, at the address [malloc] gave, whose handle
    it initialised on the global loop before accepting and on which it
    started reading as its last call; it frees nothing. *)
Theorem on_connection_accept_success (w : W) (g : globals) :
  fst (env ptr (malloc sizeof_client_t) w) <> NULL ->
  exists (p : ptr) (r0 : Z) (r : outcome W (option client_t)),
    run env (on_connection server sizeof_client_t offsetof_handle
                          offsetof_req g) w = Some r /\
    In (Ev (malloc sizeof_client_t) p) (trace r) /\
    In (Ev (uv_accept server (p + offsetof_handle)) r0) (trace r) /\
    (r0 = 0 ->
     value r = Some {| self := p; handle := p + offsetof_handle;
                       req := p + offsetof_req; nim_request := NULL |} /\
     trace r = [Ev (malloc sizeof_client_t) p;
                Ev (uv_tcp_init (loop g) (p + offsetof_handle)) tt;
                Ev (uv_accept server (p + offsetof_handle)) 0;
                Ev (uv_read_start (p + offsetof_handle)) tt] /\
     freed (trace r) = []).
Proof.
  intros Hp.
  destruct (run_on_connection w g Hp) as (p & r0 & r & Hrun & _ & Htr & Hv).
  exists p, r0, r. split; [exact Hrun | ]. rewrite Htr, Hv.
  split; [cbn; tauto | ]. split; [cbn; tauto | ].
  intros ->. repeat split.
Qed.

(** [on_connection] does not test what [malloc] answers: on NULL it
    writes through it, and the model gives it no behaviour. *)
Lemma on_connection_out_of_memory (w : W) (g : globals) :
  fst (env ptr (malloc sizeof_client_t) w) = NULL ->
  run env (on_connection server sizeof_client_t offsetof_handle
                        offsetof_req g) w = None.
Proof.
  unfold on_connection. cbn [bind ret Monad_prog pbind perform run].
  destruct (env ptr (malloc sizeof_client_t) w) as [p w1].
  cbn [fst]. intros ->. reflexivity.
Qed.

End Acceptor.

(** ** Events in sequence *)

Lemma follow_app (pending : ptr) (tr1 tr2 : list event) :
  follow pending (tr1 ++ tr2)
  = match follow pending tr1 with
    | Some pending' => follow pending' tr2
    | None => None
    end.
Proof.
  revert pending. induction tr1 as [ | [X c x] tr1 IH]; intros pending;
    cbn [app follow]; [reflexivity | ].
  destruct c; try apply IH.
  - destruct (pending =? NULL); [apply IH | reflexivity].
  - destruct ((request =? pending) && negb (request =? NULL));
      [apply IH | reflexivity].
  - destruct ((request =? pending) && negb (request =? NULL));
      [apply IH | reflexivity].
Qed.

Lemma freed_app (tr1 tr2 : list event) :
  freed (tr1 ++ tr2) = freed tr1 ++ freed tr2.
Proof. apply flat_map_app. Qed.

Section Sequences.

Context {W : Type} (env : environment W) (mem : ptr -> list byte).

(** One delivery, read for what the sequence theorems need. *)
Lemma run_deliver_more (w : W) (client : client_t) (i : input)
      (r : outcome W client_t) :
  run env (deliver mem i client) w = Some r ->
  value r = set_nim_request (nim_request (value r)) client /\
  (is_successful_read i = false -> value r = client) /\
  freed (trace r) = read_buffers [i] /\
  count is_log (trace r) = count is_failed_write (trace r) /\
  count is_write (trace r) = (if is_send_response i then 1 else 0)%nat /\
  follow (nim_request client) (trace r) = Some (nim_request (value r)) /\
  (is_successful_read i = true -> length (trace r) = 2%nat).
Proof.
  destruct client as [s h q n].
  destruct i as [nread buf | buffer | ];
    cbn [deliver is_successful_read is_send_response read_buffers flat_map
         app nim_request].
  - unfold on_read, end_response, truthy. rewrite ?negb_involutive.
    cbn [nim_request self handle].
    run_prog env; intros H; injection H as <-; cbn [value trace];
      unfold count, freed, set_nim_request;
      cbn [filter flat_map app follow is_log is_failed_write is_write
           nim_request self handle req length];
      rewrite ?Z.eqb_refl; tests.
    all: repeat match goal with
                | H : ?a = ?b |- context [?a =? ?b] =>
                    rewrite (proj2 (Z.eqb_eq a b) H)
                | H : ?a <> ?b |- context [?a =? ?b] =>
                    rewrite (proj2 (Z.eqb_neq a b) H)
                end; cbn [andb negb].
    all: repeat split; intros; try discriminate; reflexivity.
  - unfold send_response, strlen, log_error, truthy.
    destruct (strlen_bytes (mem buffer)) as [len | ];
      [ | cbn [bind Monad_prog pbind run]; discriminate].
    cbn [nim_request self handle req].
    run_prog env; intros H; injection H as <-; cbn [value trace];
      unfold count, freed, set_nim_request, truthy;
      cbn [filter flat_map app follow is_log is_failed_write is_write
           nim_request self handle req length];
      rewrite ?Z.eqb_refl; tests.
    all: repeat match goal with
                | H : ?a = ?b |- context [?a =? ?b] =>
                    rewrite (proj2 (Z.eqb_eq a b) H)
                | H : ?a <> ?b |- context [?a =? ?b] =>
                    rewrite (proj2 (Z.eqb_neq a b) H)
                end; cbn [andb negb filter length].
    all: repeat split; intros; try discriminate; reflexivity.
  - unfold end_response. run_prog env.
    intros H; injection H as <-; cbn [value trace].
    repeat split; intros; try discriminate; reflexivity.
Qed.

(** A delivery has no behaviour exactly on a [send_response] whose
    buffer holds no NUL. *)
Lemma deliver_defined (w : W) (client : client_t) (i : input) :
  (terminated mem i = true ->
   exists r, run env (deliver mem i client) w = Some r) /\
  (terminated mem i = false -> run env (deliver mem i client) w = None).
Proof.
  destruct i as [nread buf | buffer | ]; cbn [deliver terminated].
  - split; [intros _ | discriminate].
    unfold on_read, end_response. run_prog env; eexists; reflexivity.
  - unfold send_response, strlen, log_error.
    destruct (strlen_bytes (mem buffer)) as [len | ].
    + split; [intros _ | discriminate].
      run_prog env; eexists; reflexivity.
    + split; [discriminate | reflexivity].
  - split; [intros _ | discriminate].
    unfold end_response. run_prog env; eexists; reflexivity.
Qed.

(** Over a sequence of deliveries. *)
Lemma run_deliver_all_more (ins : list input) :
  forall (w : W) (client : client_t) (r : outcome W client_t),
    run env (deliver_all mem ins client) w = Some r ->
    value r = set_nim_request (nim_request (value r)) client /\
    (forallb (fun i => negb (is_successful_read i)) ins = true ->
     value r = client) /\
    freed (trace r) = read_buffers ins /\
    count is_log (trace r) = count is_failed_write (trace r) /\
    count is_write (trace r) = count is_send_response ins /\
    follow (nim_request client) (trace r) = Some (nim_request (value r)) /\
    (forallb is_successful_read ins = true ->
     length (trace r) = (2 * length ins)%nat).
Proof.
  induction ins as [ | i rest IH]; intros w client r;
    cbn [deliver_all bind ret Monad_prog].
  - cbn [run]. intros H; injection H as <-. destruct client.
    repeat split.
  - rewrite run_bind.
    destruct (run env (deliver mem i client) w) as [r1 | ] eqn:R1;
      [ | discriminate].
    destruct (run env (deliver_all mem rest (value r1)) (world r1))
      as [r2 | ] eqn:R2; [ | discriminate].
    intros H; injection H as <-. cbn [value trace].
    destruct (run_deliver_more _ _ _ _ R1)
      as (Hv1 & Hsame1 & Hf1 & Hl1 & Hw1 & Hp1 & Hn1).
    destruct (IH _ _ _ R2) as (Hv2 & Hsame2 & Hf2 & Hl2 & Hw2 & Hp2 & Hn2).
    rewrite freed_app, follow_app, !count_app, length_app, Hp1, Hp2.
    rewrite Hf1, Hf2, Hl1, Hl2, Hw1, Hw2.
    cbn [forallb read_buffers flat_map length].
    rewrite !count_cons, app_nil_r.
    repeat split.
    + rewrite Hv2, Hv1. reflexivity.
    + intros Hall. apply andb_true_iff in Hall as [Hi Hrest].
      apply negb_true_iff in Hi.
      rewrite (Hsame2 Hrest). exact (Hsame1 Hi).
    + intros Hall. apply andb_true_iff in Hall as [Hi Hrest].
      rewrite (Hn1 Hi), (Hn2 Hrest). lia.
Qed.

(** A sequence has no behaviour exactly when one of its
    [send_response]s has a buffer that holds no NUL. *)
Lemma deliver_all_defined (ins : list input) :
  forall (w : W) (client : client_t),
    (forallb (terminated mem) ins = true ->
     exists r, run env (deliver_all mem ins client) w = Some r) /\
    (forallb (terminated mem) ins = false ->
     run env (deliver_all mem ins client) w = None).
Proof.
  induction ins as [ | i rest IH]; intros w client;
    cbn [deliver_all bind ret Monad_prog forallb].
  - split; [intros _; eexists; reflexivity | discriminate].
  - rewrite run_bind.
    destruct (deliver_defined w client i) as [Hsome Hnone].
    destruct (terminated mem i); cbn [andb].
    + destruct (Hsome eq_refl) as [r1 ->].
      destruct (IH (world r1) (value r1)) as [Hs Hn]. split.
      * intros Hall. destruct (Hs Hall) as [r2 ->]. eexists; reflexivity.
      * intros Hall. now rewrite (Hn Hall).
    + rewrite (Hnone eq_refl). split; [discriminate | reflexivity].
Qed.

Lemma failed_writes_are_writes (tr : list event) :
  (count is_failed_write tr <= count is_write tr)%nat.
Proof.
  induction tr as [ | [X c x] tr IH]; [apply Nat.le_refl | ].
  rewrite !count_cons. destruct c; cbn [is_failed_write is_write]; try lia.
  destruct (truthy x); lia.
Qed.


End Sequences.

(** ** The connection as a whole *)

Section ReadCycle.

Context {W : Type} (env : environment W).

(** X3. In a read cycle the buffer that [on_alloc] got from [malloc] is
    the one [on_read] frees: whatever the result of the read and the
    state of the client, the cycle starts with the one [malloc], ends
    with the [free] of its answer, and frees nothing else. *)
Theorem read_cycle_frees_what_it_allocates
    (w : W) (client : client_t) (suggested_size nread : Z) :
  exists (p : ptr) (r : outcome W client_t) (between : list event),
    run env (read_cycle client suggested_size nread) w = Some r /\
    trace r = Ev (malloc suggested_size) p :: between ++ [Ev (free p) tt] /\
    count is_malloc (trace r) = 1%nat /\
    freed (trace r) = [p].
Proof.
  unfold read_cycle, on_alloc, on_read, end_response.
  run_prog env; cbn [base];
    match goal with
    | H : env ptr (malloc _) _ = (?p, _) |- _ => exists p
    end;
    eexists;
    match goal with
    | |- exists between, Some {| value := _; world := _;
                                 trace := _ :: ?l |} = _ /\ _ =>
        exists (removelast l)
    end;
    repeat split.
Qed.

End ReadCycle.

Section Connection.

Context {W : Type} (env : environment W) (mem : ptr -> list byte).
Context (server sizeof_client_t offsetof_handle offsetof_req : Z).

(** X4. The struct of an accepted client is freed by [on_close]:
    [on_connection] frees nothing, no sequence of events moves the
    client, and [on_close] then makes one call, the [free] of the
    address that [malloc] gave [on_connection]. *)
Theorem accepted_client_freed_by_on_close
    (w w1 w2 : W) (g : globals) (ins : list input) (client : client_t)
    (r0 : outcome W (option client_t)) (r1 : outcome W client_t) :
  run env (on_connection server sizeof_client_t offsetof_handle
                        offsetof_req g) w = Some r0 ->
  value r0 = Some client ->
  run env (deliver_all mem ins client) w1 = Some r1 ->
  exists (p : ptr) (r2 : outcome W unit),
    In (Ev (malloc sizeof_client_t) p) (trace r0) /\
    freed (trace r0) = [] /\
    run env (on_close (value r1)) w2 = Some r2 /\
    trace r2 = [Ev (free p) tt].
Proof.
  intros R0 Hc R1.
  destruct (Z.eq_dec (fst (env ptr (malloc sizeof_client_t) w)) NULL)
    as [Hnull | Hp].
  { rewrite (on_connection_out_of_memory env _ _ _ _ w g Hnull) in R0.
    discriminate R0. }
  destruct (run_on_connection env server sizeof_client_t offsetof_handle
              offsetof_req w g Hp) as (p & a & r & Hrun & _ & Htr & Hv).
  rewrite Hrun in R0. injection R0 as <-.
  rewrite Hv in Hc. rewrite Htr. clear Htr Hv Hrun.
  destruct (a =? 0); [ | discriminate Hc]. injection Hc as <-.
  destruct (run_deliver_all_more env mem ins _ _ _ R1) as (Hv1 & _).
  exists p. unfold on_close. rewrite Hv1. cbn [self set_nim_request].
  run_prog env. eexists. repeat split. cbn; tauto.
Qed.

(** X5. No sequence of events moves a client: the addresses of the
    struct, of its handle and of its write request stay as they were;
    only [nim_request] can change. *)
Theorem events_keep_addresses
    (w : W) (client : client_t) (ins : list input)
    (r : outcome W client_t) :
  run env (deliver_all mem ins client) w = Some r ->
  self (value r) = self client /\
  handle (value r) = handle client /\
  req (value r) = req client.
Proof.
  intros R. destruct (run_deliver_all_more env mem ins _ _ _ R) as (Hv & _).
  rewrite Hv. repeat split.
Qed.

(** X6. Over any sequence of events the addresses freed are the buffers
    of the read events, each once and in the order of delivery:
    [send_response] and [end_response] free nothing, in particular not
    the response buffer. *)
Theorem events_free_read_buffers
    (w : W) (client : client_t) (ins : list input)
    (r : outcome W client_t) :
  run env (deliver_all mem ins client) w = Some r ->
  freed (trace r) = read_buffers ins.
Proof.
  intros R.
  destruct (run_deliver_all_more env mem ins _ _ _ R) as (_ & _ & Hf & _).
  exact Hf.
Qed.

(** X7. Over any sequence of events one write is submitted per
    [send_response], and one line goes to the diagnostic stream per
    refused write: a read error is not logged. *)
Theorem events_log_refused_writes
    (w : W) (client : client_t) (ins : list input)
    (r : outcome W client_t) :
  run env (deliver_all mem ins client) w = Some r ->
  count is_write (trace r) = count is_send_response ins /\
  count is_log (trace r) = count is_failed_write (trace r) /\
  (count is_log (trace r) <= count is_send_response ins)%nat.
Proof.
  intros R.
  destruct (run_deliver_all_more env mem ins _ _ _ R)
    as (_ & _ & _ & Hl & Hw & _).
  repeat split; [exact Hw | exact Hl | ].
  rewrite Hl, <- Hw. apply failed_writes_are_writes.
Qed.

(** X8. Over any sequence of events the calls to the parser follow its
    protocol: [http_readheader] is called only while no request is
    pending, [http_continue] and [http_end] only on the pending request
    and never on NULL; and [nim_request] ends as the request the
    protocol leaves pending. *)
Theorem events_follow_parser_protocol
    (w : W) (client : client_t) (ins : list input)
    (r : outcome W client_t) :
  run env (deliver_all mem ins client) w = Some r ->
  follow (nim_request client) (trace r) = Some (nim_request (value r)).
Proof.
  intros R.
  destruct (run_deliver_all_more env mem ins _ _ _ R)
    as (_ & _ & _ & _ & _ & Hp & _).
  exact Hp.
Qed.


(** In the model a sequence of events runs to its end exactly when the
    buffer of every [send_response] in it holds a NUL. *)
Lemma events_defined_iff_buffers_terminated
    (w : W) (client : client_t) (ins : list input) :
  (exists r, run env (deliver_all mem ins client) w = Some r)
  <-> forallb (terminated mem) ins = true.
Proof.
  destruct (deliver_all_defined env mem ins w client) as [Hs Hn]. split.
  - intros [r R]. destruct (forallb (terminated mem) ins); [reflexivity | ].
    rewrite (Hn eq_refl) in R. discriminate R.
  - exact Hs.
Qed.

(** X10. Only a successful read changes the client: a sequence of read
    errors, [send_response]s and [end_response]s leaves the struct,
    [nim_request] included, as it was. *)
Theorem client_changes_only_on_successful_read
    (w : W) (client : client_t) (ins : list input)
    (r : outcome W client_t) :
  forallb (fun i => negb (is_successful_read i)) ins = true ->
  run env (deliver_all mem ins client) w = Some r ->
  value r = client.
Proof.
  intros Hall R.
  destruct (run_deliver_all_more env mem ins _ _ _ R) as (_ & Hsame & _).
  exact (Hsame Hall).
Qed.

End Connection.

Section Listener.

Context {W : Type} (env : environment W).
Context (server sizeof_client_t offsetof_handle offsetof_req : Z).

(** The run of [start_server], read for the loop it leaves behind. *)
Lemma run_start_server (w : W) (ip : ptr) (port : Z) :
  exists (l : ptr) (r : outcome W globals),
    run env (start_server server ip port) w = Some r /\
    value r = {| loop := l |} /\
    hd_error (trace r) = Some (Ev uv_default_loop l) /\
    In (Ev (uv_tcp_init l server) tt) (trace r) /\
    last (trace r) (Ev (uv_run l) tt) = Ev (uv_run l) tt.
Proof.
  unfold start_server, log_error.
  run_prog env; eexists; eexists; (split; [reflexivity | ]);
    repeat split; cbn; tauto.
Qed.

(** X11. Connections live on the loop the server runs: the handle of a
    client is initialised by [on_connection] on the loop that
    [start_server] got from [uv_default_loop], on which it initialised
    the listening handle and which it runs as its last call. *)
Theorem connections_use_the_server_loop
    (w w1 : W) (ip : ptr) (port : Z)
    (r : outcome W globals) (r1 : outcome W (option client_t)) :
  run env (start_server server ip port) w = Some r ->
  run env (on_connection server sizeof_client_t offsetof_handle
                        offsetof_req (value r)) w1 = Some r1 ->
  exists (l p : ptr),
    hd_error (trace r) = Some (Ev uv_default_loop l) /\
    In (Ev (uv_tcp_init l server) tt) (trace r) /\
    last (trace r) (Ev (uv_run l) tt) = Ev (uv_run l) tt /\
    In (Ev (malloc sizeof_client_t) p) (trace r1) /\
    In (Ev (uv_tcp_init l (p + offsetof_handle)) tt) (trace r1).
Proof.
  intros R R1.
  destruct (run_start_server w ip port) as (l & r' & R' & Hv & Hhd & Hin & Hl).
  rewrite R in R'. injection R' as <-.
  destruct (Z.eq_dec (fst (env ptr (malloc sizeof_client_t) w1)) NULL)
    as [Hnull | Hp].
  { rewrite (on_connection_out_of_memory env _ _ _ _ w1 _ Hnull) in R1.
    discriminate R1. }
  destruct (run_on_connection env server sizeof_client_t offsetof_handle
              offsetof_req w1 (value r) Hp)
    as (p & a & r1' & Hrun & _ & Htr & _).
  rewrite R1 in Hrun. injection Hrun as <-.
  exists l, p. rewrite Htr, Hv. cbn [loop].
  repeat split; try assumption; cbn; tauto.
Qed.

(** X12. The first chunk read on an accepted connection starts a
    request: [on_read] hands it to [http_readheader], with the address
    of the client as context, and stores the answer. *)
Theorem first_read_begins_request
    (w w1 : W) (g : globals) (client : client_t) (nread : Z) (buf : uv_buf_t)
    (r0 : outcome W (option client_t)) :
  run env (on_connection server sizeof_client_t offsetof_handle
                        offsetof_req g) w = Some r0 ->
  value r0 = Some client ->
  0 <= nread ->
  exists (h : ptr) (r : outcome W client_t),
    In (Ev (malloc sizeof_client_t) (self client)) (trace r0) /\
    run env (on_read client nread buf) w1 = Some r /\
    trace r = [Ev (http_readheader (self client) (base buf) nread) h;
               Ev (free (base buf)) tt] /\
    nim_request (value r) = h.
Proof.
  intros R0 Hc Hn.
  destruct (Z.eq_dec (fst (env ptr (malloc sizeof_client_t) w)) NULL)
    as [Hnull | Hp].
  { rewrite (on_connection_out_of_memory env _ _ _ _ w g Hnull) in R0.
    discriminate R0. }
  destruct (run_on_connection env server sizeof_client_t offsetof_handle
              offsetof_req w g Hp) as (p & a & r & Hrun & _ & Htr & Hv).
  rewrite Hrun in R0. injection R0 as <-.
  rewrite Hv in Hc. rewrite Htr. clear Htr Hv Hrun.
  destruct (a =? 0); [ | discriminate Hc]. injection Hc as <-.
  unfold on_read. cbn [nim_request self].
  rewrite (proj2 (Z.leb_le 0 nread) Hn), Z.eqb_refl.
  run_prog env. eexists; eexists. repeat split. cbn; tauto.
Qed.

End Listener.

(** ** These theorems at work on the sample connection *)

Lemma on_connection_accept_failure_sample :
  exists (p : ptr) (r0 : Z) (r : outcome nat (option client_t)),
    run nothing_to_accept (on_connection 2048 256 0 248 {| loop := 64 |})
        0%nat = Some r /\
    (r0 <> 0 -> value r = None /\ freed (trace r) = [p]).
Proof.
  destruct (on_connection_accept_failure nothing_to_accept 2048 256 0 248
              0%nat {| loop := 64 |} ltac:(discriminate))
    as (p & r0 & r & Hrun & _ & _ & Hfail).
  exists p, r0, r. split; [exact Hrun | ].
  intros H. destruct (Hfail H) as (Hv & Hf & _). split; assumption.
Defined.

Lemma on_connection_accept_success_sample :
  exists (p : ptr) (r0 : Z) (r : outcome nat (option client_t)),
    run Sample.accepting (on_connection 2048 256 0 248 {| loop := 64 |})
        0%nat = Some r /\
    (r0 = 0 ->
     value r = Some {| self := p; handle := p + 0; req := p + 248;
                       nim_request := NULL |}).
Proof.
  destruct (on_connection_accept_success Sample.accepting 2048 256 0 248
              0%nat {| loop := 64 |} ltac:(discriminate))
    as (p & r0 & r & Hrun & _ & _ & Hok).
  exists p, r0, r. split; [exact Hrun | ].
  intros H. exact (proj1 (Hok H)).
Defined.

Lemma accepted_client_freed_by_on_close_sample :
  exists (r1 : outcome nat client_t) (p : ptr) (r2 : outcome nat unit),
    run Sample.refusing
        (deliver_all Sample.memory
           [Read 4 Sample.chunk; SendResponse 8192] Sample.fresh)
        4%nat = Some r1 /\
    run Sample.refusing (on_close (value r1)) 12%nat = Some r2 /\
    trace r2 = [Ev (free p) tt].
Proof.
  eexists.
  destruct (accepted_client_freed_by_on_close Sample.refusing Sample.memory
              2048 256 0 248 0%nat 4%nat 12%nat {| loop := 64 |}
              [Read 4 Sample.chunk; SendResponse 8192] Sample.fresh
              _ _ eq_refl eq_refl eq_refl)
    as (p & r2 & _ & _ & Hrun & Htr).
  exists p, r2. split; [reflexivity | ]. split; assumption.
Defined.

Lemma events_keep_addresses_sample :
  exists r : outcome nat client_t,
    run Sample.refusing
        (deliver_all Sample.memory
           [Read 4 Sample.chunk; SendResponse 8192; EndResponse] Sample.fresh)
        0%nat = Some r /\
    self (value r) = 4096 /\ handle (value r) = 4096 /\ req (value r) = 4344.
Proof.
  eexists. split; [reflexivity | ].
  apply (events_keep_addresses Sample.refusing Sample.memory 0%nat
           Sample.fresh [Read 4 Sample.chunk; SendResponse 8192; EndResponse]
           _ eq_refl).
Defined.

Lemma events_free_read_buffers_sample :
  exists r : outcome nat client_t,
    run Sample.refusing
        (deliver_all Sample.memory
           [Read 4 Sample.chunk; SendResponse 8192; Read (-104) Sample.chunk]
           Sample.fresh)
        0%nat = Some r /\
    freed (trace r) = [12288; 12288].
Proof.
  eexists. split; [reflexivity | ].
  apply (events_free_read_buffers Sample.refusing Sample.memory 0%nat
           Sample.fresh
           [Read 4 Sample.chunk; SendResponse 8192; Read (-104) Sample.chunk]
           _ eq_refl).
Defined.

Lemma events_log_refused_writes_sample :
  exists r : outcome nat client_t,
    run Sample.refusing
        (deliver_all Sample.memory
           [Read (-104) Sample.chunk; SendResponse 8192] Sample.pending)
        0%nat = Some r /\
    count is_write (trace r) = 1%nat /\
    count is_log (trace r) = count is_failed_write (trace r) /\
    (count is_log (trace r) <= 1)%nat.
Proof.
  eexists. split; [reflexivity | ].
  apply (events_log_refused_writes Sample.refusing Sample.memory 0%nat
           Sample.pending [Read (-104) Sample.chunk; SendResponse 8192]
           _ eq_refl).
Defined.

Lemma events_follow_parser_protocol_sample :
  exists r : outcome nat client_t,
    run Sample.accepting
        (deliver_all Sample.memory
           [Read 4 Sample.chunk; Read 9 Sample.chunk; Read 4 Sample.chunk;
            Read (-104) Sample.chunk] Sample.fresh)
        0%nat = Some r /\
    follow NULL (trace r) = Some (nim_request (value r)).
Proof.
  eexists. split; [reflexivity | ].
  apply (events_follow_parser_protocol Sample.accepting Sample.memory 0%nat
           Sample.fresh
           [Read 4 Sample.chunk; Read 9 Sample.chunk; Read 4 Sample.chunk;
            Read (-104) Sample.chunk] _ eq_refl).
Defined.


Lemma client_changes_only_on_successful_read_sample :
  exists r : outcome nat client_t,
    run Sample.refusing
        (deliver_all Sample.memory
           [SendResponse 8192; Read (-104) Sample.chunk; EndResponse]
           Sample.pending)
        0%nat = Some r /\
    value r = Sample.pending.
Proof.
  eexists. split; [reflexivity | ].
  apply (client_changes_only_on_successful_read Sample.refusing Sample.memory
           0%nat Sample.pending
           [SendResponse 8192; Read (-104) Sample.chunk; EndResponse]
           _ eq_refl eq_refl).
Defined.

Lemma connections_use_the_server_loop_sample :
  exists (r : outcome nat globals) (r1 : outcome nat (option client_t))
         (l p : ptr),
    run Sample.accepting (start_server 2048 1024 8080) 0%nat = Some r /\
    run Sample.accepting (on_connection 2048 256 0 248 (value r)) 5%nat
      = Some r1 /\
    In (Ev (uv_tcp_init l 2048) tt) (trace r) /\
    In (Ev (uv_tcp_init l (p + 0)) tt) (trace r1).
Proof.
  eexists; eexists.
  destruct (connections_use_the_server_loop Sample.accepting 2048 256 0 248
              0%nat 5%nat 1024 8080 _ _ eq_refl eq_refl)
    as (l & p & _ & Hinit & _ & _ & Hclient).
  exists l, p. split; [reflexivity | ]. split; [reflexivity | ].
  split; assumption.
Defined.

Lemma first_read_begins_request_sample :
  exists (h : ptr) (r : outcome nat client_t),
    run Sample.accepting (on_read Sample.fresh 4 Sample.chunk) 4%nat
      = Some r /\
    trace r = [Ev (http_readheader 4096 12288 4) h; Ev (free 12288) tt] /\
    nim_request (value r) = h.
Proof.
  destruct (first_read_begins_request Sample.accepting 2048 256 0 248
              0%nat 4%nat {| loop := 64 |} Sample.fresh 4 Sample.chunk
              _ eq_refl eq_refl ltac:(lia))
    as (h & r & _ & Hrun & Htr & Hq).
  exists h, r. repeat split; assumption.
Defined.
